(** * DamonsTitleCard: the command sequence of one title card

    A shallow embedding of [DamonsTitleCard.py].  The card builds a list of
    ImageMagick command fragments (Python strings) and joins them into one
    [convert] command.  Strings are [string], the [int] fields are [Z], the
    [float] fields are binary64 [float]s, the [extras] dictionary is a
    [gmap], and the one attribute that the code assigns while building the
    text commands ([hide_episode_text]) is threaded through explicitly. *)

From Stdlib Require Import ZArith String Ascii List Floats Bool DecimalString Lia.
From stdpp Require Import gmap strings.
Import ListNotations.

(** ** Python string operations used by the card *)

(** The double quote character, written by its code. *)
Definition dq : string := String "034"%char EmptyString.

(** [f'"{s}"'] *)
Definition quoted (s : string) : string := dq +:+ s +:+ dq.

(** [str(n)] for an [int], as an f-string prints it. *)
Definition str_int (z : Z) : string := NilZero.string_of_int (Z.to_int z).

(** [s.split(sep, maxsplit)] for a one-character separator: cut at the first
    [maxsplit] occurrences of [sep], keeping empty parts. *)
Fixpoint split (sep : ascii) (maxsplit : nat) (s : string) : list string :=
  match s with
  | EmptyString => [EmptyString]
  | String c r =>
      match maxsplit with
      | S m =>
          if Ascii.eqb c sep then EmptyString :: split sep m r
          else match split sep maxsplit r with
               | p :: ps => String c p :: ps
               | [] => [String c EmptyString]
               end
      | O => [s]
      end
  end.

(** [sep.join(parts)] *)
Fixpoint join (sep : string) (parts : list string) : string :=
  match parts with
  | [] => EmptyString
  | [p] => p
  | p :: ps => p +:+ sep +:+ join sep ps
  end.

(** Number of occurrences of a character. *)
Fixpoint count_char (c : ascii) (s : string) : nat :=
  match s with
  | EmptyString => 0
  | String x r => (if Ascii.eqb x c then 1 else 0) + count_char c r
  end.

(** Unpacking a list into five names; Python raises [ValueError] on any other
    length, which is [None] here. *)
Definition unpack5 (l : list string)
  : option (string * string * string * string * string) :=
  match l with
  | [a; b; c; d; e] => Some (a, b, c, d, e)
  | _ => None
  end.

(** ** What the card takes from outside

    [pathlib], the string and number builtins, and the parent class
    [BaseCardType] with its ImageMagick interface are not part of the card's
    source; the card is modelled over any implementation of them. *)
Class Externals := {
  (** [pathlib.Path], its [/] operator, [Path.resolve] and [str(path)] *)
  Path : Type;
  joinpath : Path -> string -> Path;
  resolve : Path -> Path;
  str_path : Path -> string;
  (** [BaseCardType.BASE_REF_DIRECTORY] *)
  BASE_REF_DIRECTORY : Path;
  (** [str.upper] *)
  upper : string -> string;
  (** how an f-string prints a [float] *)
  str_float : float -> string;
  (** the state set up by [BaseCardType.__init__(blur, grayscale,
      preferences=...)], and the inherited members the card reads from it *)
  Preferences : Type;
  Base : Type;
  base_init : bool -> bool -> option Preferences -> Base;
  escape_chars : Base -> string -> string;
  resize_and_style : Base -> list string;
  resize_output : Base -> list string;
}.

(** ** The arguments of the two static predicates *)

(** The attributes of a [Font] that [is_custom_font] reads. *)
Record Font := {
  color : string;
  file : string;
  interline_spacing : Z;
  interword_spacing : Z;
  kerning : float;
  size : float;
  stroke_width : float;
  vertical_shift : Z;
}.

(** Values stored in the [extras] dictionary: a [str] (the colours) or a
    [float] (the font size). *)
Inductive value :=
| VStr (s : string)
| VFloat (x : float).

(** [v != 'literal'] and [v != 1.0]-style comparisons of a dictionary value;
    a [str] and a [float] are never equal. *)
Definition ne_str (v : value) (s : string) : bool :=
  match v with
  | VStr x => negb (String.eqb x s)
  | VFloat _ => true
  end.

Definition ne_float (v : value) (y : float) : bool :=
  match v with
  | VStr _ => true
  | VFloat x => negb (PrimFloat.eqb x y)
  end.

(** [key in d and d[key] != ...] *)
Definition present_and (d : gmap string value) (key : string)
    (differs : value -> bool) : bool :=
  match d !! key with
  | Some v => differs v
  | None => false
  end.

Section Card.
Context {E : Externals}.

(** ** Class attributes *)

Definition REF_DIRECTORY : Path := joinpath BASE_REF_DIRECTORY "olivier".
Definition SW_REF_DIRECTORY : Path := joinpath BASE_REF_DIRECTORY "star_wars".
Definition GRAD_REF_DIRECTORY : Path := BASE_REF_DIRECTORY.

Definition TITLE_FONT : string :=
  str_path (resolve (joinpath REF_DIRECTORY "Montserrat-Bold.ttf")).
Definition TITLE_COLOR : string := "#EBEBEB".

Definition EPISODE_TEXT_FORMAT : string :=
  "SEASON {to_cardinal(season_number)} • EPISODE {to_cardinal(episode_number)}".
Definition EPISODE_PREFIX_FONT : Path := joinpath SW_REF_DIRECTORY "HelveticaNeue.ttc".
Definition EPISODE_NUMBER_FONT : Path := joinpath SW_REF_DIRECTORY "HelveticaNeue-Bold.ttf".
Definition STROKE_COLOR : string := "black".
Definition SERIES_COUNT_TEXT_COLOR : string := "#CFCFCF".

Definition GRADIENT_IMAGE : Path := joinpath GRAD_REF_DIRECTORY "GRADIENT.png".

(** ** The instance *)

(** The slots of a card, and [parent] for what [BaseCardType.__init__]
    stores. *)
Record Card := {
  parent : Base;
  source_file : Path;
  output_file : Path;
  title_text : string;
  season_text : string;
  episode_text : string;
  hide_season_text : bool;
  hide_episode_text : bool;
  font_color : string;
  font_file : string;
  font_interline_spacing : Z;
  font_interword_spacing : Z;
  title_interline_spacing : Z;
  font_kerning : float;
  font_size : float;
  font_stroke_width : float;
  font_vertical_shift : Z;
  episode_text_color : string;
  omit_gradient : bool;
  stroke_color : string;
  episode_text_font_size : float;
}.

(** [self.hide_episode_text = b] *)
Definition set_hide_episode_text (b : bool) (self : Card) : Card :=
  {| parent := parent self;
     source_file := source_file self;
     output_file := output_file self;
     title_text := title_text self;
     season_text := season_text self;
     episode_text := episode_text self;
     hide_season_text := hide_season_text self;
     hide_episode_text := b;
     font_color := font_color self;
     font_file := font_file self;
     font_interline_spacing := font_interline_spacing self;
     font_interword_spacing := font_interword_spacing self;
     title_interline_spacing := title_interline_spacing self;
     font_kerning := font_kerning self;
     font_size := font_size self;
     font_stroke_width := font_stroke_width self;
     font_vertical_shift := font_vertical_shift self;
     episode_text_color := episode_text_color self;
     omit_gradient := omit_gradient self;
     stroke_color := stroke_color self;
     episode_text_font_size := episode_text_font_size self |}.

(** [__init__], every keyword passed explicitly.  The Python defaults are
    [False] for the flags, [TITLE_COLOR], [TITLE_FONT], [0], [0], [-50],
    [1.0], [1.0], [1.0], [0], ['black'], [SERIES_COUNT_TEXT_COLOR], [1.0]
    and [None]. *)
Definition init
    (source_file' card_file : Path)
    (title_text' season_text' episode_text' : string)
    (hide_season_text' hide_episode_text' : bool)
    (font_color' font_file' : string)
    (font_interline_spacing' font_interword_spacing' title_interline_spacing' : Z)
    (font_kerning' font_size' font_stroke_width' : float)
    (font_vertical_shift' : Z)
    (blur grayscale : bool)
    (stroke_color' episode_text_color' : string)
    (episode_text_font_size' : float)
    (omit_gradient' : bool)
    (preferences : option Preferences) : Card :=
  let base := base_init blur grayscale preferences in
  {| parent := base;
     source_file := source_file';
     output_file := card_file;
     title_text := escape_chars base title_text';
     season_text := escape_chars base season_text';
     episode_text := escape_chars base episode_text';
     hide_season_text := hide_season_text';
     hide_episode_text := hide_episode_text';
     font_color := font_color';
     font_file := font_file';
     font_kerning := font_kerning';
     font_interline_spacing := font_interline_spacing';
     font_interword_spacing := font_interword_spacing';
     title_interline_spacing := title_interline_spacing';
     font_size := font_size';
     font_stroke_width := font_stroke_width';
     font_vertical_shift := font_vertical_shift';
     omit_gradient := omit_gradient';
     stroke_color := stroke_color';
     episode_text_color := episode_text_color';
     episode_text_font_size := episode_text_font_size' |}.

(** ** [is_custom_font] and [is_custom_season_titles] *)

Definition is_custom_font (font : Font) (extras : gmap string value) : bool :=
  let custom_extras :=
    present_and extras "episode_text_color"
      (fun v => ne_str v SERIES_COUNT_TEXT_COLOR)
    || present_and extras "episode_text_font_size" (fun v => ne_float v 1%float)
    || present_and extras "stroke_color" (fun v => ne_str v "black") in
  custom_extras
  || (negb (String.eqb (color font) TITLE_COLOR)
      || negb (String.eqb (file font) TITLE_FONT)
      || negb (Z.eqb (interline_spacing font) 0)
      || negb (Z.eqb (interword_spacing font) 0)
      || negb (PrimFloat.eqb (kerning font) 1%float)
      || negb (PrimFloat.eqb (size font) 1%float)
      || negb (PrimFloat.eqb (stroke_width font) 1%float)
      || negb (Z.eqb (vertical_shift font) 0)).

(** The two [print] calls only write to standard output. *)
Definition is_custom_season_titles (custom_episode_map : bool)
    (episode_text_format : string) : bool :=
  let standard_etf := EPISODE_TEXT_FORMAT in
  negb (String.eqb episode_text_format standard_etf).

(** ** [format_text_commands] *)

(** The six names bound at the top of [format_text_commands]. *)
Record Tokens := {
  top_line : string;
  season_prefix : string;
  season_number : string;
  separator : string;
  episode_prefix : string;
  episode_number : string;
}.

(** The [try]/[except] block: all six names start empty; either the five
    parts are unpacked, or unpacking raises and [top_line] takes the whole
    upper-cased text. *)
Definition episode_tokens (text : string) : Tokens :=
  match unpack5 (split " " 4 (upper text)) with
  | Some (a, b, c, d, e) =>
      {| top_line := ""; season_prefix := a; season_number := b;
         separator := c; episode_prefix := d; episode_number := e |}
  | None =>
      {| top_line := upper text; season_prefix := ""; season_number := "";
         separator := ""; episode_prefix := ""; episode_number := "" |}
  end.

(** The property returns the command list; the second component is [self]
    after the call, since the body assigns [self.hide_episode_text].  The
    three [print] calls only write to standard output. *)
Definition format_text_commands (self : Card) : list string * Card :=
  let title_font_size := (200 * font_size self)%float in
  let episode_font_size := (90 * episode_text_font_size self)%float in
  let title_stroke_width := 12%Z in
  let episode_stroke_width := 2%Z in
  let episode_kerning := (10 * episode_text_font_size self)%float in
  let title_kerning := (0.5 * font_kerning self)%float in
  let interline_spacing :=
    (title_interline_spacing self + font_interline_spacing self)%Z in
  let interword_spacing := (50 + font_interword_spacing self)%Z in
  let tk := episode_tokens (episode_text self) in
  let '(season_commands, separator_commands, episode_commands, self) :=
    if Nat.leb (String.length (top_line tk)) 0 then
      let '(season_commands, self) :=
        if negb (hide_season_text self) then
          if String.eqb (season_number tk) "ZERO" then
            ([ "-font " +:+ quoted (str_path (resolve EPISODE_NUMBER_FONT));
               "label:" +:+ quoted "SPECIAL" ],
             set_hide_episode_text true self)
          else
            ([ "-font " +:+ quoted (str_path (resolve EPISODE_PREFIX_FONT));
               "label:" +:+ quoted (season_prefix tk);
               "-font " +:+ quoted (str_path (resolve EPISODE_NUMBER_FONT));
               "label:" +:+ quoted (season_number tk) ],
             self)
        else ([], self) in
      let separator_commands :=
        if negb (hide_season_text self) && negb (hide_episode_text self) then
          [ "label:" +:+ quoted (separator tk) ]
        else [] in
      let episode_commands :=
        if negb (hide_episode_text self) then
          [ "-font " +:+ quoted (str_path (resolve EPISODE_PREFIX_FONT));
            "label:" +:+ quoted (episode_prefix tk);
            "-font " +:+ quoted (str_path (resolve EPISODE_NUMBER_FONT));
            "label:" +:+ quoted (episode_number tk) ]
        else [] in
      (season_commands, separator_commands, episode_commands, self)
    else ([], [], [], self) in
  ( [ "-gravity west";
      "\(";
      "\(";
      "-gravity west";
      "-fill " +:+ quoted SERIES_COUNT_TEXT_COLOR;
      "-pointsize " +:+ str_float episode_font_size;
      "-kerning " +:+ str_float episode_kerning;
      "-stroke " +:+ quoted (stroke_color self);
      "-strokewidth " +:+ str_int episode_stroke_width ]
    ++ season_commands
    ++ separator_commands
    ++ episode_commands
    ++ [ "+smush 40";
         "\)";
         "\(";
         "-gravity west";
         "-fill " +:+ quoted (stroke_color self);
         "-font " +:+ quoted (font_file self);
         "-kerning " +:+ str_float title_kerning;
         "-pointsize " +:+ str_float title_font_size;
         "-interline-spacing " +:+ str_int interline_spacing;
         "-interword-spacing " +:+ str_int interword_spacing;
         "-stroke " +:+ quoted (stroke_color self);
         "-strokewidth " +:+ str_int title_stroke_width;
         "label:" +:+ quoted (title_text self);
         "-fill " +:+ quoted (font_color self);
         "-font " +:+ quoted (font_file self);
         "-kerning " +:+ str_float title_kerning;
         "-pointsize " +:+ str_float title_font_size;
         "-interline-spacing " +:+ str_int interline_spacing;
         "-interword-spacing " +:+ str_int interword_spacing;
         "-stroke " +:+ quoted (font_color self);
         "-strokewidth 0";
         "label:" +:+ quoted (title_text self);
         "-composite";
         "\)";
         "-gravity west";
         "-smush 50";
         "\)";
         "-gravity southwest";
         "-geometry +150+100";
         "-composite" ],
    self ).

(** ** [gradient_command] and [create] *)

Definition gradient_command (self : Card) : list string :=
  let ret := [] in
  let ret :=
    if negb (omit_gradient self) then
      [ quoted (str_path (resolve GRADIENT_IMAGE));
        "-composite" ]
    else ret in
  ret.

(** The list that [create] joins, its parts evaluated in the order written,
    and [self] afterwards. *)
Definition create_commands (self : Card) : list string * Card :=
  let head := "convert " +:+ quoted (str_path (resolve (source_file self))) in
  let style := resize_and_style (parent self) in
  let gradient := gradient_command self in
  let '(text, self) := format_text_commands self in
  let output := resize_output (parent self) in
  let tail := quoted (str_path (resolve (output_file self))) in
  ([head] ++ style ++ gradient ++ text ++ output ++ [tail], self).

(** [create]: the command string handed to [image_magick.run], and [self]
    afterwards. *)
Definition create (self : Card) : string * Card :=
  let '(parts, self) := create_commands self in
  (join " " parts, self).

End Card.

(** ** Reading a command sequence

    The vocabulary in which the properties of the sequence are stated:
    the label variant that the layout branches on, the parenthesised groups,
    the label fragments, and the text settings in force at each label. *)

(** The two layouts selected by [top_line.__len__() <= 0]. *)
Inductive EpisodeLabel :=
| Standard (season_prefix season_number separator episode_prefix episode_number : string)
| Fallback (line : string).

Definition label_of (tk : Tokens) : EpisodeLabel :=
  if Nat.leb (String.length (top_line tk)) 0 then
    Standard (season_prefix tk) (season_number tk) (separator tk)
             (episode_prefix tk) (episode_number tk)
  else Fallback (top_line tk).

(** The fragment that typesets [text]. *)
Definition label (text : string) : string := "label:" +:+ quoted text.

Definition is_label (t : string) : bool := String.prefix "label:" t.

Definition labels (cmds : list string) : list string :=
  List.filter is_label cmds.

(** The fragments up to and including the first closing parenthesis. *)
Fixpoint upto_close (cmds : list string) : list string :=
  match cmds with
  | [] => []
  | t :: r => if String.eqb t "\)" then [t] else t :: upto_close r
  end.

(** The sequence starts with [-gravity west] and the opening parenthesis of
    the whole text layer; the season/episode group is the first inner group
    and the title group the one that follows it. *)
Definition season_episode_group (cmds : list string) : list string :=
  upto_close (skipn 2 cmds).

Definition title_group (cmds : list string) : list string :=
  upto_close (skipn (2 + List.length (season_episode_group cmds)) cmds).

(** A fragment cut at its first space: option name and argument. *)
Fixpoint cut_space (t : string) : string * string :=
  match t with
  | EmptyString => (EmptyString, EmptyString)
  | String c r =>
      if Ascii.eqb c " " then (EmptyString, r)
      else let '(a, b) := cut_space r in (String c a, b)
  end.

(** The settings that govern how a label is typeset. *)
Definition text_settings : list string :=
  [ "-gravity"; "-fill"; "-font"; "-kerning"; "-pointsize";
    "-interline-spacing"; "-interword-spacing"; "-stroke"; "-strokewidth" ].

(** The text settings in force: the last argument given to each option. *)
Definition settings := string -> option string.

Definition set_option (name arg : string) (st : settings) : settings :=
  fun key => if String.eqb key name then Some arg else st key.

(** Run over the fragments from left to right, remembering the last argument
    given to each text setting, and report every label together with the
    settings in force when it is reached.  Settings persist across
    parentheses. *)
Fixpoint typeset (st : settings) (cmds : list string)
  : list (string * settings) :=
  match cmds with
  | [] => []
  | t :: r =>
      if is_label t then (t, st) :: typeset st r
      else
        let '(name, arg) := cut_space t in
        if existsb (String.eqb name) text_settings
        then typeset (set_option name arg st) r
        else typeset st r
  end.

(** Number of places where image fragment [g] is immediately followed by
    [-composite]. *)
Fixpoint composite_steps (g : string) (cmds : list string) : nat :=
  match cmds with
  | t :: (u :: _) as r =>
      (if String.eqb t g && String.eqb u "-composite" then 1 else 0)
      + composite_steps g r
  | _ => 0
  end.

(** Parenthesis depth after running over the fragments from depth [depth];
    [None] when a closing parenthesis has no opening one. *)
Fixpoint nesting (depth : nat) (cmds : list string) : option nat :=
  match cmds with
  | [] => Some depth
  | t :: r =>
      if String.eqb t "\(" then nesting (S depth) r
      else if String.eqb t "\)" then
        match depth with
        | O => None
        | S d => nesting d r
        end
      else nesting depth r
  end.

(** ** A concrete environment

    Paths are POSIX strings, [upper] maps the ASCII letters and leaves every
    other byte alone (as [str.upper] does on ASCII text and on the bullet),
    and a float is printed by its exact decimal expansion, which is what
    Python prints for floats such as [90.0], [0.5] or [200.0]. *)

Definition ascii_upper (c : ascii) : ascii :=
  let n := nat_of_ascii c in
  if Nat.leb 97 n && Nat.leb n 122 then ascii_of_nat (n - 32) else c.

Fixpoint ascii_upper_string (s : string) : string :=
  match s with
  | EmptyString => EmptyString
  | String c r => String (ascii_upper c) (ascii_upper_string r)
  end.

Fixpoint zeros (n : nat) : string :=
  match n with
  | O => EmptyString
  | S m => String "0" (zeros m)
  end.

Fixpoint strip_trailing_zeros (s : string) : string :=
  match s with
  | EmptyString => EmptyString
  | String c r =>
      match strip_trailing_zeros r with
      | EmptyString => if Ascii.eqb c "0" then EmptyString else String c EmptyString
      | r' => String c r'
      end
  end.

Definition decimal_float (x : float) : string :=
  match Prim2SF x with
  | S754_zero s => if s then "-0.0" else "0.0"
  | S754_infinity s => if s then "-inf" else "inf"
  | S754_nan => "nan"
  | S754_finite s m e =>
      let sign := if s then "-" else "" in
      if (0 <=? e)%Z then sign +:+ str_int (Z.pos m * 2 ^ e) +:+ ".0"
      else
        let k := (- e)%Z in
        let whole := (Z.pos m / 2 ^ k)%Z in
        let digits := str_int ((Z.pos m mod 2 ^ k) * 5 ^ k) in
        let padded := zeros (Z.to_nat k - String.length digits) +:+ digits in
        let frac := strip_trailing_zeros padded in
        sign +:+ str_int whole +:+ "."
        +:+ (if String.eqb frac "" then "0" else frac)
  end.

#[local] Instance demo : Externals := {|
  Path := string;
  joinpath := fun p name => p +:+ "/" +:+ name;
  resolve := fun p => p;
  str_path := fun p => p;
  BASE_REF_DIRECTORY := "/ref";
  upper := ascii_upper_string;
  str_float := decimal_float;
  Preferences := unit;
  Base := bool * bool;
  base_init := fun blur grayscale _ => (blur, grayscale);
  escape_chars := fun _ s => s;
  resize_and_style := fun b =>
    ["-resize 3200x1800"]
    ++ (if fst b then ["-blur 0x30"] else [])
    ++ (if snd b then ["-colorspace gray"] else []);
  resize_output := fun _ => ["-resize 3200x1800"];
|}.

(** A card in the concrete environment with the constructor defaults for
    everything but the texts, the two hide flags, the title interline base
    and the gradient flag. *)
Definition demo_card (episode : string) (hide_season hide_episode : bool)
    (title_interline : Z) (omit : bool) : Card :=
  init (E := demo) "/in/source.jpg" "/out/card.jpg"
    "THE LONG NIGHT" "Season 1" episode hide_season hide_episode
    TITLE_COLOR TITLE_FONT 0 0 title_interline 1 1 1 0
    false false "black" SERIES_COUNT_TEXT_COLOR 1 omit None.

(** ** Styles and group shapes *)

(** The nine text settings in force at a label. *)
Record Style := {
  s_gravity : option string;
  s_fill : option string;
  s_font : option string;
  s_kerning : option string;
  s_pointsize : option string;
  s_interline : option string;
  s_interword : option string;
  s_stroke : option string;
  s_strokewidth : option string;
}.

Definition style_of (st : settings) : Style :=
  {| s_gravity := st "-gravity";
     s_fill := st "-fill";
     s_font := st "-font";
     s_kerning := st "-kerning";
     s_pointsize := st "-pointsize";
     s_interline := st "-interline-spacing";
     s_interword := st "-interword-spacing";
     s_stroke := st "-stroke";
     s_strokewidth := st "-strokewidth" |}.

(** The labels of a sequence, each with the style it is typeset in. *)
Definition typeset_styles (st : settings) (cmds : list string)
  : list (string * Style) :=
  List.map (fun p => (fst p, style_of (snd p))) (typeset st cmds).

Definition is_text_setting (t : string) : bool :=
  existsb (String.eqb (fst (cut_space t))) text_settings.

(** A group [\( items op \)] whose items are only text settings and labels,
    closed by the operator [op] that merges the labels. *)
Definition merged_by (op : string) (group : list string) : bool :=
  match group, rev group with
  | opening :: inner, closing :: last :: _ =>
      String.eqb opening "\("
      && String.eqb closing "\)"
      && String.eqb last op
      && forallb (fun t => is_label t || is_text_setting t)
           (removelast (removelast inner))
  | _, _ => false
  end.

(** A dictionary entry that is present and differs from a default. *)
Definition extra_differs (extras : gmap string value) (key : string)
    (default : value) : Prop :=
  exists v, extras !! key = Some v /\ v <> default.

Section Statements.
Context {E : Externals}.

(** The style of one pass over the title, for a given interline base, colour
    and stroke width. *)
Definition title_style (self : Card) (base : Z) (colour : string) (width : Z)
  : Style :=
  {| s_gravity := Some "west";
     s_fill := Some (quoted colour);
     s_font := Some (quoted (font_file self));
     s_kerning := Some (str_float (0.5 * font_kerning self)%float);
     s_pointsize := Some (str_float (200 * font_size self)%float);
     s_interline := Some (str_int (base + font_interline_spacing self));
     s_interword := Some (str_int (50 + font_interword_spacing self));
     s_stroke := Some (quoted colour);
     s_strokewidth := Some (str_int width) |}.


(** The variant of a card's episode text. *)
Definition episode_label (self : Card) : EpisodeLabel :=
  label_of (episode_tokens (episode_text self)).

(** The condition under which [format_text_commands] assigns
    [hide_episode_text]. *)
Definition forces_hide (self : Card) : bool :=
  match episode_label self with
  | Standard _ number _ _ _ =>
      negb (hide_season_text self) && String.eqb number "ZERO"
  | Fallback _ => false
  end.

(** *** Statements that the code does not satisfy as they are worded *)

Definition five_nonempty_parts (s a b c d e : string) : Prop :=
  split " " 4 s = [a; b; c; d; e]
  /\ a <> "" /\ b <> "" /\ c <> "" /\ d <> "" /\ e <> "".

(** Five non-empty parts give [Standard]; every other text gives
    [Fallback]. *)
Definition parser_statement (text : string) : Prop :=
  (forall a b c d e,
      five_nonempty_parts (upper text) a b c d e ->
      label_of (episode_tokens text) = Standard a b c d e)
  /\ ((~ exists a b c d e, five_nonempty_parts (upper text) a b c d e) ->
      label_of (episode_tokens text) = Fallback (upper text)).

(** Season number [ZERO] always gives the single label [SPECIAL] and hides
    the episode text. *)
Definition special_statement (self : Card) : Prop :=
  forall sp sep ep en,
    episode_label self = Standard sp "ZERO" sep ep en ->
    labels (season_episode_group (fst (format_text_commands self)))
      = [label "SPECIAL"]
    /\ hide_episode_text (snd (format_text_commands self)) = true.

(** A fallback line is rendered as the single label of the group. *)
Definition fallback_statement (self : Card) : Prop :=
  forall line,
    episode_label self = Fallback line ->
    labels (season_episode_group (fst (format_text_commands self)))
      = [label line].

(** Building the text commands changes nothing and is repeatable. *)
Definition purity_statement (self : Card) : Prop :=
  snd (format_text_commands self) = self
  /\ fst (format_text_commands (snd (format_text_commands self)))
     = fst (format_text_commands self).

(** The two title passes, with the interline base fixed at [-50]. *)
Definition title_statement (self : Card) : Prop :=
  forall st0,
    typeset_styles st0 (title_group (fst (format_text_commands self)))
    = [ (label (title_text self), title_style self (-50) (stroke_color self) 12);
        (label (title_text self), title_style self (-50) (font_color self) 0) ]
    /\ merged_by "-composite" (title_group (fst (format_text_commands self)))
       = true.

End Statements.

(** * Properties *)

(** ** Exact comparisons *)

Lemma string_ne_iff (a b : string) : negb (String.eqb a b) = true <-> a <> b.
Proof.
  rewrite negb_true_iff. destruct (String.eqb_spec a b); split; congruence.
Qed.

Lemma Z_ne_iff (a b : Z) : negb (Z.eqb a b) = true <-> a <> b.
Proof.
  rewrite negb_true_iff. destruct (Z.eqb_spec a b); split; congruence.
Qed.

(** A float that compares equal to a positive finite one has the same
    mantissa and exponent. *)
Lemma SFeqb_finite_eq (f : spec_float) (m : positive) (e : Z) :
  SFeqb f (S754_finite false m e) = true -> f = S754_finite false m e.
Proof.
  unfold SFeqb, SFcompare.
  destruct f as [s | s | | s m' e']; try discriminate;
    try (destruct s; discriminate).
  destruct s; [ discriminate | ].
  destruct (Z.compare_spec e' e) as [He | | ]; try discriminate.
  destruct (PosDef.Pos.compare_cont Eq m' m) eqn:Hm; try discriminate.
  intros _. apply (Pos.compare_eq m' m) in Hm. now rewrite He, Hm.
Qed.

(** The only float that compares equal to [1.0] is [1.0] itself. *)
Lemma float_eqb_one (x : float) : PrimFloat.eqb x 1 = true <-> x = 1%float.
Proof.
  split; [ | intros ->; reflexivity ].
  intros H. apply Prim2SF_inj. rewrite FloatAxioms.eqb_spec in H.
  apply SFeqb_finite_eq. exact H.
Qed.

Lemma float_ne_one (x : float) : negb (PrimFloat.eqb x 1) = true <-> x <> 1%float.
Proof.
  rewrite negb_true_iff, <- float_eqb_one.
  destruct (PrimFloat.eqb x 1); split; congruence.
Qed.

Lemma ne_str_iff (v : value) (s : string) : ne_str v s = true <-> v <> VStr s.
Proof.
  destruct v as [x | x]; simpl.
  - rewrite string_ne_iff. split; congruence.
  - split; [ discriminate | reflexivity ].
Qed.

Lemma ne_float_one (v : value) : ne_float v 1 = true <-> v <> VFloat 1.
Proof.
  destruct v as [x | x]; simpl.
  - split; [ discriminate | reflexivity ].
  - rewrite float_ne_one. split; congruence.
Qed.

Lemma present_and_iff (d : gmap string value) key differs default :
  (forall v, differs v = true <-> v <> default) ->
  present_and d key differs = true <-> extra_differs d key default.
Proof.
  intros Hd. unfold present_and, extra_differs.
  destruct (d !! key) as [v | ].
  - rewrite Hd. split; [ eauto | intros (w & [= <-] & Hw); exact Hw ].
  - split; [ discriminate | intros (w & Hw & _); discriminate ].
Qed.

(** ** The customisation predicates *)

Section Customisation.
Context {E : Externals}.

(** C5.  [is_custom_font] is true exactly when one of the three listed extras
    is present with a value different from its standard one, or one of the
    eight font attributes differs from the class default; the comparisons are
    exact equalities.  So it is false when every attribute has its default
    and no extra is present-and-different, and true as soon as a single one
    differs. *)
Theorem is_custom_font_exact (font : Font) (extras : gmap string value) :
  is_custom_font font extras = true <->
    extra_differs extras "episode_text_color" (VStr SERIES_COUNT_TEXT_COLOR)
    \/ extra_differs extras "episode_text_font_size" (VFloat 1)
    \/ extra_differs extras "stroke_color" (VStr "black")
    \/ color font <> TITLE_COLOR
    \/ file font <> TITLE_FONT
    \/ interline_spacing font <> 0%Z
    \/ interword_spacing font <> 0%Z
    \/ kerning font <> 1%float
    \/ size font <> 1%float
    \/ stroke_width font <> 1%float
    \/ vertical_shift font <> 0%Z.
Proof.
  unfold is_custom_font.
  rewrite !orb_true_iff, !string_ne_iff, !Z_ne_iff, !float_ne_one.
  rewrite (present_and_iff extras "episode_text_color" _
             (VStr SERIES_COUNT_TEXT_COLOR))
    by (intros v; apply ne_str_iff).
  rewrite (present_and_iff extras "episode_text_font_size" _ (VFloat 1))
    by (intros v; apply ne_float_one).
  rewrite (present_and_iff extras "stroke_color" _ (VStr "black"))
    by (intros v; apply ne_str_iff).
  tauto.
Qed.

(** C6.  [is_custom_season_titles] is true exactly when the format differs
    from the standard template, and [custom_episode_map] plays no part. *)
Theorem is_custom_season_titles_exact (custom_episode_map : bool)
    (episode_text_format : string) :
  (is_custom_season_titles custom_episode_map episode_text_format = true
   <-> episode_text_format <> EPISODE_TEXT_FORMAT)
  /\ (is_custom_season_titles custom_episode_map episode_text_format = false
      <-> episode_text_format = EPISODE_TEXT_FORMAT)
  /\ forall other_map : bool,
       is_custom_season_titles other_map episode_text_format
       = is_custom_season_titles custom_episode_map episode_text_format.
Proof.
  unfold is_custom_season_titles. split; [ | split ].
  - apply string_ne_iff.
  - rewrite negb_false_iff. apply String.eqb_eq.
  - reflexivity.
Qed.

End Customisation.

(** ** Splitting on spaces *)

Lemma split_not_nil sep n s : split sep n s <> [].
Proof.
  destruct s as [ | c r]; [ discriminate | ].
  destruct n as [ | m]; simpl; [ discriminate | ].
  destruct (Ascii.eqb c sep); [ discriminate | ].
  destruct (split sep (S m) r); discriminate.
Qed.

(** The number of parts is one more than the number of cuts made. *)
Lemma length_split sep n s :
  List.length (split sep n s) = S (Nat.min n (count_char sep s)).
Proof.
  revert n. induction s as [ | c r IH]; intros n.
  - simpl. now rewrite Nat.min_0_r.
  - destruct n as [ | m]; [ reflexivity | ].
    simpl. destruct (Ascii.eqb c sep).
    + simpl. now rewrite IH.
    + specialize (IH (S m)).
      destruct (split sep (S m) r) as [ | p ps] eqn:Hs.
      * now apply split_not_nil in Hs.
      * exact IH.
Qed.

Lemma join_cons_char sep c p ps :
  join sep (String c p :: ps) = String c (join sep (p :: ps)).
Proof. destruct ps; reflexivity. Qed.

(** Joining the parts with the separator gives the text back. *)
Lemma join_split sep n s : join (String sep "") (split sep n s) = s.
Proof.
  revert n. induction s as [ | c r IH]; intros n; [ reflexivity | ].
  destruct n as [ | m]; [ reflexivity | ].
  simpl split. destruct (Ascii.eqb_spec c sep) as [-> | Hne].
  - specialize (IH m).
    destruct (split sep m r) as [ | p ps] eqn:Hs.
    + now apply split_not_nil in Hs.
    + change (join (String sep "") ("" :: p :: ps))
        with (String sep (join (String sep "") (p :: ps))).
      now rewrite IH.
  - specialize (IH (S m)).
    destruct (split sep (S m) r) as [ | p ps] eqn:Hs.
    + now apply split_not_nil in Hs.
    + rewrite join_cons_char. now rewrite IH.
Qed.

(** Every part before the last is free of the separator. *)
Lemma split_parts_clean sep n s :
  Forall (fun p => count_char sep p = 0) (removelast (split sep n s)).
Proof.
  revert n. induction s as [ | c r IH]; intros n; [ constructor | ].
  destruct n as [ | m]; [ constructor | ].
  simpl split. destruct (Ascii.eqb c sep) eqn:Hc.
  - specialize (IH m).
    destruct (split sep m r) as [ | p ps] eqn:Hs.
    + now apply split_not_nil in Hs.
    + change (removelast ("" :: p :: ps)) with ("" :: removelast (p :: ps)).
      constructor; [ reflexivity | exact IH ].
  - specialize (IH (S m)).
    destruct (split sep (S m) r) as [ | p ps] eqn:Hs.
    + now apply split_not_nil in Hs.
    + destruct ps as [ | q qs]; [ constructor | ].
      change (removelast (String c p :: q :: qs))
        with (String c p :: removelast (q :: qs)).
      change (removelast (p :: q :: qs)) with (p :: removelast (q :: qs)) in IH.
      inversion IH as [ | ? ? Hp Hrest]; subst.
      constructor; [ | exact Hrest ].
      simpl. now rewrite Hc.
Qed.

(** Unpacking succeeds exactly on five parts. *)
Lemma unpack5_length (l : list string) :
  List.length l = 5 ->
  exists a b c d e, l = [a; b; c; d; e] /\ unpack5 l = Some (a, b, c, d, e).
Proof.
  destruct l as [ | a [ | b [ | c [ | d [ | e [ | f l]]]]]]; try discriminate.
  intros _. now exists a, b, c, d, e.
Qed.

Lemma unpack5_other (l : list string) : List.length l <> 5 -> unpack5 l = None.
Proof.
  destruct l as [ | a [ | b [ | c [ | d [ | e [ | f l]]]]]]; try reflexivity.
  intros H. now contradiction H.
Qed.

Section Parser.
Context {E : Externals}.

(** C1, as the code has it.  With [s] the upper-cased text: if [s] holds at
    least four spaces it is cut at the first four, and the five parts (empty
    or not) are the [Standard] tokens in order; with fewer than four spaces a
    non-empty [s] is the [Fallback] line. *)
Theorem episode_label_by_spaces (text : string) :
  (4 <= count_char " " (upper text) ->
   exists a b c d e,
     upper text = a +:+ " " +:+ b +:+ " " +:+ c +:+ " " +:+ d +:+ " " +:+ e
     /\ count_char " " a = 0 /\ count_char " " b = 0
     /\ count_char " " c = 0 /\ count_char " " d = 0
     /\ label_of (episode_tokens text) = Standard a b c d e)
  /\ (count_char " " (upper text) < 4 -> upper text <> "" ->
      label_of (episode_tokens text) = Fallback (upper text)).
Proof.
  unfold episode_tokens.
  pose proof (length_split " " 4 (upper text)) as Hlen.
  pose proof (join_split " " 4 (upper text)) as Hjoin.
  pose proof (split_parts_clean " " 4 (upper text)) as Hclean.
  split.
  - intros Hcount. rewrite Nat.min_l in Hlen by exact Hcount.
    destruct (unpack5_length _ Hlen) as (a & b & c & d & e & Hs & Hu).
    rewrite Hu. rewrite Hs in Hjoin, Hclean.
    exists a, b, c, d, e. simpl in Hclean.
    inversion Hclean as [ | ? ? Ha Hc1]; subst.
    inversion Hc1 as [ | ? ? Hb Hc2]; subst.
    inversion Hc2 as [ | ? ? Hc Hc3]; subst.
    inversion Hc3 as [ | ? ? Hd _]; subst.
    repeat split; try assumption. symmetry. exact Hjoin.
  - intros Hcount Hne. rewrite unpack5_other by lia.
    unfold label_of. simpl top_line.
    destruct (upper text); [ now contradiction Hne | reflexivity ].
Qed.

End Parser.

(** [A  B C D] has four spaces, so it is cut into five parts of which the
    second is empty; the layout is [Standard], not [Fallback]. *)
Lemma parser_statement_fails : ~ parser_statement (E := demo) "A  B C D".
Proof.
  intros [_ H].
  assert (Hf : label_of (episode_tokens (E := demo) "A  B C D")
               = Fallback (upper (Externals := demo) "A  B C D")).
  { apply H. intros (a & b & c & d & e & Hs & _ & Hb & _).
    vm_compute in Hs. apply Hb. congruence. }
  vm_compute in Hf. discriminate Hf.
Qed.

Lemma episode_label_by_spaces_witness :
  label_of (episode_tokens (E := demo) "Flashback") = Fallback "FLASHBACK".
Proof.
  apply (proj2 (episode_label_by_spaces (E := demo) "Flashback")).
  - vm_compute. lia.
  - vm_compute. discriminate.
Defined.

(** ** The text commands *)

Ltac card_fields :=
  cbn [parent source_file output_file title_text season_text episode_text
       hide_season_text hide_episode_text font_color font_file
       font_interline_spacing font_interword_spacing title_interline_spacing
       font_kerning font_size font_stroke_width font_vertical_shift
       episode_text_color omit_gradient stroke_color episode_text_font_size
       top_line season_prefix season_number separator episode_prefix
       episode_number] in *.

(** Every path through [format_text_commands]: the card opened into its
    fields, the tokens into theirs, then the four tests the code makes. *)
Ltac text_cases self :=
  destruct self as [? ? ? ? ? ? hs he ? ? ? ? ? ? ? ? ? ? ? ? ?];
  unfold forces_hide, episode_label, label_of, format_text_commands in *;
  cbv zeta in *; card_fields;
  destruct (episode_tokens _) as [top sp' sn' sep' ep' en']; card_fields;
  destruct top as [ | ? ?]; destruct hs; destruct he;
  cbn [Nat.leb String.length negb andb orb] in *;
  destruct (String.eqb sn' "ZERO") eqn:Hzero.

(** A non-empty top line is the whole upper-cased text. *)
Lemma fallback_line `{Externals} (text line : string) :
  label_of (episode_tokens text) = Fallback line ->
  line = upper text /\ line <> "".
Proof.
  unfold label_of, episode_tokens.
  destruct (unpack5 (split " " 4 (upper text))) as [[[[[a b] c] d] e] | ];
    cbn [top_line]; [ discriminate | ].
  destruct (upper text) as [ | x r]; [ discriminate | ].
  intros [= <-]. split; [ reflexivity | discriminate ].
Qed.

Section TextCommands.
Context {E : Externals}.

(** What [format_text_commands] never touches. *)
Lemma format_text_commands_frame (self : Card) :
  parent (snd (format_text_commands self)) = parent self
  /\ output_file (snd (format_text_commands self)) = output_file self.
Proof. text_cases self; split; reflexivity. Qed.

(** No text fragment starts with a double quote. *)
Lemma text_fragments_unquoted (self : Card) :
  forallb (fun t => match t with
                    | String c _ => negb (Ascii.eqb c "034")
                    | EmptyString => true
                    end)
    (fst (format_text_commands self))
  = true.
Proof. text_cases self; reflexivity. Qed.

(** C2, as the code has it.  When the label is [Standard] with season number
    [ZERO] and the season text is not hidden, the season/episode group holds
    exactly one label, [SPECIAL], typeset in the number font, and
    [hide_episode_text] is true afterwards whatever it was before. *)
Theorem special_season (self : Card) (sp sep ep en : string) :
  episode_label self = Standard sp "ZERO" sep ep en ->
  hide_season_text self = false ->
  labels (season_episode_group (fst (format_text_commands self)))
  = [label "SPECIAL"]
  /\ (forall st0,
        List.map (fun p => (fst p, s_font (style_of (snd p))))
          (typeset st0 (season_episode_group (fst (format_text_commands self))))
        = [ (label "SPECIAL",
             Some (quoted (str_path (resolve EPISODE_NUMBER_FONT)))) ])
  /\ merged_by "+smush 40"
       (season_episode_group (fst (format_text_commands self))) = true
  /\ hide_episode_text (snd (format_text_commands self)) = true.
Proof.
  intros H Hs.
  text_cases self; try discriminate H; try discriminate Hs;
    injection H as -> -> -> -> ->; try discriminate Hzero;
    repeat split; reflexivity.
Qed.

(** C3, as the code has it.  When the label is [Fallback], its line is the
    whole upper-cased episode text and is not empty, yet the season/episode
    group carries no label at all: it is the shared settings closed by
    [+smush 40].  The only labels of the whole sequence are the two title
    passes, and the instance is left as it was. *)
Theorem fallback_group_has_no_label (self : Card) (line : string) :
  episode_label self = Fallback line ->
  (line = upper (episode_text self) /\ line <> "")
  /\ labels (season_episode_group (fst (format_text_commands self))) = []
  /\ merged_by "+smush 40"
       (season_episode_group (fst (format_text_commands self))) = true
  /\ labels (fst (format_text_commands self))
     = [label (title_text self); label (title_text self)]
  /\ snd (format_text_commands self) = self.
Proof.
  intros H. split; [ exact (fallback_line _ _ H) | ].
  text_cases self; try discriminate H; repeat split; reflexivity.
Qed.

(** C4, as the code has it.  [format_text_commands] changes no attribute but
    [hide_episode_text], which it sets to true when the label is [Standard]
    with season number [ZERO] and the season text is shown; and building the
    commands again from the resulting instance gives the same commands and
    the same instance. *)
Theorem format_text_commands_effect (self : Card) :
  snd (format_text_commands self)
  = set_hide_episode_text (hide_episode_text self || forces_hide self) self
  /\ format_text_commands (snd (format_text_commands self))
     = format_text_commands self.
Proof.
  assert (Hstate : snd (format_text_commands self)
                   = set_hide_episode_text
                       (hide_episode_text self || forces_hide self) self).
  { unfold set_hide_episode_text. text_cases self; reflexivity. }
  split; [ exact Hstate | ].
  rewrite Hstate. unfold set_hide_episode_text.
  text_cases self; reflexivity.
Qed.

(** C8, as the code has it.  The title group typesets the title text twice
    at gravity west, in the caller's font file, with kerning
    [0.5 * font_kerning], point size [200 * font_size], interline spacing
    [title_interline_spacing + font_interline_spacing] (the base is an
    attribute of the instance, [-50] unless the caller passes another value)
    and interword spacing [50 + font_interword_spacing]; the first pass has
    fill and stroke in the stroke colour with stroke width 12, the second
    fill and stroke in the font colour with stroke width 0; the group holds
    nothing but settings and the two labels and is closed by [-composite]. *)
Theorem title_passes (self : Card) (st0 : settings) :
  typeset_styles st0 (title_group (fst (format_text_commands self)))
  = [ (label (title_text self),
       title_style self (title_interline_spacing self) (stroke_color self) 12);
      (label (title_text self),
       title_style self (title_interline_spacing self) (font_color self) 0) ]
  /\ merged_by "-composite" (title_group (fst (format_text_commands self)))
     = true.
Proof. text_cases self; split; reflexivity. Qed.


End TextCommands.

(** ** The assembled command *)

Lemma composite_steps_skip (g : string) (l1 l2 : list string) :
  ~ In g l1 -> composite_steps g (l1 ++ l2) = composite_steps g l2.
Proof.
  induction l1 as [ | t r IH]; intros Hn; [ reflexivity | ].
  assert (Ht : String.eqb t g = false).
  { apply String.eqb_neq. intros ->. apply Hn. now left. }
  assert (Hr : ~ In g r) by (intros Hin; apply Hn; now right).
  specialize (IH Hr). simpl app.
  destruct (r ++ l2) as [ | u rest] eqn:Happ.
  - destruct r; [ | discriminate Happ ]. simpl in Happ. now subst l2.
  - simpl composite_steps in *. rewrite Ht. simpl. exact IH.
Qed.

Lemma composite_steps_here (g : string) (l : list string) :
  g <> "-composite" ->
  composite_steps g (g :: "-composite" :: l) = S (composite_steps g l).
Proof.
  intros Hg.
  change (composite_steps g (g :: "-composite" :: l))
    with ((if String.eqb g g && String.eqb "-composite" "-composite"
           then 1 else 0)
          + composite_steps g (["-composite"] ++ l)).
  rewrite String.eqb_refl, composite_steps_skip; [ reflexivity | ].
  intros [Hin | []]. now apply Hg.
Qed.

Section Create.
Context {E : Externals}.

(** C7.  With [omit_gradient] the assembled list is the [convert] head and
    the style pass followed at once by the text commands, two fragments
    shorter than without it; without it the two fragments of the gradient
    step stand between the style pass and the text commands.  Provided the
    inherited style and output passes do not themselves mention the gradient
    image, the list has no gradient composite step in the first case and
    exactly one in the second. *)
Theorem gradient_step (self : Card) :
  let g := quoted (str_path (resolve GRADIENT_IMAGE)) in
  let before :=
    ("convert " +:+ quoted (str_path (resolve (source_file self))))
    :: resize_and_style (parent self) in
  let after :=
    fst (format_text_commands self)
    ++ resize_output (parent self)
    ++ [quoted (str_path (resolve (output_file self)))] in
  let cmds := fst (create_commands self) in
  (omit_gradient self = true -> cmds = before ++ after)
  /\ (omit_gradient self = false ->
      cmds = before ++ [g; "-composite"] ++ after)
  /\ List.length cmds
     = List.length before + (if omit_gradient self then 0 else 2)
       + List.length after
  /\ (~ In g (resize_and_style (parent self)) ->
      ~ In g (resize_output (parent self)) ->
      composite_steps g cmds = if omit_gradient self then 0 else 1).
Proof.
  intros g before after cmds.
  assert (Hcmds : cmds = before ++ gradient_command self ++ after).
  { subst cmds before after. unfold create_commands.
    destruct (format_text_commands_frame self) as [Hp Ho].
    destruct (format_text_commands self) as [text self']. simpl in *.
    now rewrite Hp, Ho. }
  assert (Hhead : ~ In g before -> ~ In g (resize_and_style (parent self)))
    by (intros Hn Hin; apply Hn; now right).
  assert (Hbefore : ~ In g (resize_and_style (parent self)) -> ~ In g before).
  { intros Hstyle [Hin | Hin]; [ discriminate Hin | now apply Hstyle ]. }
  assert (Hafter : ~ In g (resize_output (parent self)) ->
                   composite_steps g after = 0).
  { intros Hout. subst after. rewrite composite_steps_skip.
    - rewrite composite_steps_skip by exact Hout. reflexivity.
    - intros Hin.
      pose proof (text_fragments_unquoted self) as Hq.
      rewrite forallb_forall in Hq. specialize (Hq g Hin).
      discriminate Hq. }
  assert (Hg : g <> "-composite") by discriminate.
  unfold gradient_command in Hcmds. fold g in Hcmds.
  clearbody g before after cmds. clear Hhead.
  destruct (omit_gradient self); cbn [negb] in Hcmds; rewrite Hcmds;
    (split; [ | split; [ | split ] ]); try discriminate; try reflexivity.
  - rewrite !length_app. simpl. lia.
  - intros Hstyle Hout.
    rewrite composite_steps_skip by exact (Hbefore Hstyle).
    exact (Hafter Hout).
  - rewrite !length_app. simpl. lia.
  - intros Hstyle Hout.
    rewrite composite_steps_skip by exact (Hbefore Hstyle).
    change ([g; "-composite"] ++ after) with (g :: "-composite" :: after).
    rewrite composite_steps_here by exact Hg.
    now rewrite (Hafter Hout).
Qed.

(** C10.  Two cards constructed from the same arguments except
    [episode_text_color] give the same list of fragments and the same
    command; the colour is stored on the instance, while the fill of the
    season/episode group is the class constant. *)
Theorem episode_text_color_ignored
    (source card_file : Path) (title season episode : string)
    (hide_season hide_episode : bool) (colour font_path : string)
    (interline interword title_interline : Z)
    (kern scale stroke_scale : float) (shift : Z) (blur grayscale : bool)
    (stroke : string) (episode_scale : float) (omit : bool)
    (preferences : option Preferences) (colour1 colour2 : string) :
  let card c :=
    init source card_file title season episode hide_season hide_episode
      colour font_path interline interword title_interline kern scale
      stroke_scale shift blur grayscale stroke c episode_scale omit
      preferences in
  fst (create_commands (card colour1)) = fst (create_commands (card colour2))
  /\ fst (create (card colour1)) = fst (create (card colour2))
  /\ episode_text_color (card colour1) = colour1
  /\ nth_error (season_episode_group
                  (fst (format_text_commands (card colour1)))) 2
     = Some ("-fill " +:+ quoted SERIES_COUNT_TEXT_COLOR).
Proof.
  intros card. subst card.
  unfold create, create_commands, init, gradient_command,
    format_text_commands.
  cbv zeta. card_fields.
  destruct (episode_tokens _) as [top sp sn sep ep en]. card_fields.
  destruct top, hide_season, hide_episode;
    cbn [Nat.leb String.length negb andb orb];
    destruct (String.eqb sn "ZERO"); repeat split; reflexivity.
Qed.

End Create.

(** ** The statements that fail, each at a concrete card *)

(** Season number [ZERO] with the season text hidden: the group holds the two
    episode labels and no [SPECIAL], and the episode text stays shown. *)
Lemma special_statement_fails :
  ~ special_statement
      (demo_card "Season zero • Episode one" true false (-50) false).
Proof.
  intros H.
  destruct (H "SEASON" "•" "EPISODE" "ONE") as [Hl _];
    [ vm_compute; reflexivity | ].
  vm_compute in Hl. discriminate Hl.
Qed.

(** [Flashback] is a fallback line, and the group has no label for it. *)
Lemma fallback_statement_fails :
  ~ fallback_statement (demo_card "Flashback" false false (-50) false).
Proof.
  intros H.
  specialize (H "FLASHBACK"). vm_compute in H.
  specialize (H eq_refl). discriminate H.
Qed.

(** Season number [ZERO] with both texts shown: [hide_episode_text] is false
    before the call and true after it. *)
Lemma purity_statement_fails :
  ~ purity_statement
      (demo_card "Season zero • Episode one" false false (-50) false).
Proof.
  intros [H _]. apply (f_equal hide_episode_text) in H.
  vm_compute in H. discriminate H.
Qed.

(** A card constructed with [title_interline_spacing=-30]: the interline
    spacing of the title is [-30], not [-50]. *)
Lemma title_statement_fails :
  ~ title_statement
      (demo_card "Season one • Episode two" false false (-30) false).
Proof.
  intros H. destruct (H (fun _ => None)) as [Hs _].
  apply (f_equal (List.map (fun p => s_interline (snd p)))) in Hs.
  vm_compute in Hs. discriminate Hs.
Qed.

(** ** The theorems at concrete cards *)

Lemma special_season_witness :
  hide_episode_text
    (snd (format_text_commands
            (demo_card "Season zero • Episode one" false false (-50) false)))
  = true.
Proof.
  apply (special_season
           (demo_card "Season zero • Episode one" false false (-50) false)
           "SEASON" "•" "EPISODE" "ONE").
  - vm_compute. reflexivity.
  - reflexivity.
Defined.

Lemma fallback_group_has_no_label_witness :
  labels (season_episode_group
            (fst (format_text_commands
                    (demo_card "Flashback" false false (-50) false))))
  = [].
Proof.
  apply (fallback_group_has_no_label
           (demo_card "Flashback" false false (-50) false) "FLASHBACK").
  vm_compute. reflexivity.
Defined.


Lemma gradient_step_witness :
  composite_steps (quoted "/ref/GRADIENT.png")
    (fst (create_commands
            (demo_card "Season one • Episode two" false false (-50) false)))
  = 1.
Proof.
  apply (proj2 (proj2 (proj2
           (gradient_step
              (demo_card "Season one • Episode two" false false (-50)
                 false))))).
  - vm_compute. intros [H | []]. discriminate H.
  - vm_compute. intros [H | []]. discriminate H.
Defined.

(** ** Checks on concrete inputs *)

Example split_stops_after_four :
  split " " 4 "SEASON ONE - EPISODE TWENTY ONE"
  = ["SEASON"; "ONE"; "-"; "EPISODE"; "TWENTY ONE"].
Proof. reflexivity. Qed.

Example split_keeps_empty_parts :
  split " " 4 " A B  C" = [""; "A"; "B"; ""; "C"].
Proof. reflexivity. Qed.

Example split_three_spaces :
  unpack5 (split " " 4 "ONE TWO THREE FOUR") = None.
Proof. reflexivity. Qed.

Example default_font_is_not_custom :
  is_custom_font (E := demo)
    {| color := "#EBEBEB"; file := "/ref/olivier/Montserrat-Bold.ttf";
       interline_spacing := 0; interword_spacing := 0; kerning := 1;
       size := 1; stroke_width := 1; vertical_shift := 0 |}
    (<["stroke_color" := VStr "black"]> ∅)
  = false.
Proof. vm_compute. reflexivity. Qed.

Example red_stroke_is_custom :
  is_custom_font (E := demo)
    {| color := "#EBEBEB"; file := "/ref/olivier/Montserrat-Bold.ttf";
       interline_spacing := 0; interword_spacing := 0; kerning := 1;
       size := 1; stroke_width := 1; vertical_shift := 0 |}
    (<["stroke_color" := VStr "red"]> ∅)
  = true.
Proof. vm_compute. reflexivity. Qed.

(** The card of the end-to-end scenario: five season/episode labels, then
    the two title passes. *)
Example long_night_labels :
  labels (fst (create_commands
                 (demo_card "Season one • Episode two" false false (-50)
                    false)))
  = [ label "SEASON"; label "ONE"; label "•"; label "EPISODE"; label "TWO";
      label "THE LONG NIGHT"; label "THE LONG NIGHT" ].
Proof. vm_compute. reflexivity. Qed.

Example long_night_length :
  List.length
    (fst (create_commands
            (demo_card "Season one • Episode two" false false (-50) false)))
  = 54
  /\ List.length
       (fst (create_commands
               (demo_card "Season one • Episode two" false false (-50) true)))
     = 52.
Proof. split; vm_compute; reflexivity. Qed.

(** * Further properties of the text commands *)

Section TextStructure.
Context {E : Externals}.

(** X1.  Whatever the texts and flags, the parentheses of the text commands
    are balanced: read from any depth, the sequence never closes a
    parenthesis it has not opened and ends at the depth it started from. *)
Theorem text_commands_balanced (self : Card) (depth : nat) :
  nesting depth (fst (format_text_commands self)) = Some depth.
Proof. text_cases self; reflexivity. Qed.

(** X2.  The text commands are [-gravity west] and an opening parenthesis,
    the season/episode group, the title group, then the merge of the two
    ([-gravity west], [-smush 50], closing parenthesis) and the placement on
    the canvas ([-gravity southwest], [-geometry +150+100], [-composite]). *)
Theorem text_commands_decompose (self : Card) :
  fst (format_text_commands self)
  = ["-gravity west"; "\("]
    ++ season_episode_group (fst (format_text_commands self))
    ++ title_group (fst (format_text_commands self))
    ++ [ "-gravity west"; "-smush 50"; "\)";
         "-gravity southwest"; "-geometry +150+100"; "-composite" ].
Proof. text_cases self; reflexivity. Qed.

(** X3.  With both the season text and the episode text hidden, the only
    labels of the text commands are the two title passes, whatever the
    episode text is. *)
Theorem hidden_texts_leave_title (self : Card) :
  hide_season_text self = true ->
  hide_episode_text self = true ->
  labels (fst (format_text_commands self))
  = [label (title_text self); label (title_text self)].
Proof.
  intros Hs He. text_cases self; try discriminate Hs; try discriminate He;
    reflexivity.
Qed.

(** X4.  [format_text_commands] leaves the instance exactly as it was when
    the season text is hidden or the episode text is already hidden. *)
Theorem hidden_flag_keeps_instance (self : Card) :
  hide_season_text self = true \/ hide_episode_text self = true ->
  snd (format_text_commands self) = self.
Proof.
  intros H.
  text_cases self; destruct H as [H | H]; try discriminate H; reflexivity.
Qed.

(** X5.  The text commands have between 39 and 48 fragments, of which
    between two and seven are labels. *)
Theorem text_commands_bounds (self : Card) :
  39 <= List.length (fst (format_text_commands self)) <= 48
  /\ 2 <= List.length (labels (fst (format_text_commands self))) <= 7.
Proof.
  text_cases self;
    (split;
     [ change (List.length _) with 39 || change (List.length _) with 41
       || change (List.length _) with 43 || change (List.length _) with 44
       || change (List.length _) with 48
     | change (List.length _) with 2 || change (List.length _) with 3
       || change (List.length _) with 4 || change (List.length _) with 7 ]);
    lia.
Qed.

(** X6.  An episode text that is empty once upper-cased is laid out in the
    standard way: with both texts shown the group typesets five empty
    labels. *)
Theorem empty_episode_text_labels (self : Card) :
  upper (episode_text self) = "" ->
  hide_season_text self = false ->
  hide_episode_text self = false ->
  labels (season_episode_group (fst (format_text_commands self)))
  = [label ""; label ""; label ""; label ""; label ""].
Proof.
  intros Hu Hs He.
  destruct self as [? ? ? ? ? ? hs he ? ? ? ? ? ? ? ? ? ? ? ? ?].
  unfold format_text_commands, episode_tokens. cbv zeta. card_fields.
  rewrite Hu, Hs, He. reflexivity.
Qed.

End TextStructure.

Lemma hidden_texts_leave_title_witness :
  labels (fst (format_text_commands
                 (demo_card "Season one • Episode two" true true (-50) false)))
  = [label "THE LONG NIGHT"; label "THE LONG NIGHT"].
Proof.
  apply (hidden_texts_leave_title
           (demo_card "Season one • Episode two" true true (-50) false));
    reflexivity.
Defined.

Lemma hidden_flag_keeps_instance_witness :
  snd (format_text_commands
         (demo_card "Season zero • Episode two" true false (-50) false))
  = demo_card "Season zero • Episode two" true false (-50) false.
Proof.
  apply (hidden_flag_keeps_instance
           (demo_card "Season zero • Episode two" true false (-50) false)).
  left. reflexivity.
Defined.

Lemma empty_episode_text_labels_witness :
  labels (season_episode_group
            (fst (format_text_commands
                    (demo_card "" false false (-50) false))))
  = [label ""; label ""; label ""; label ""; label ""].
Proof.
  apply (empty_episode_text_labels (demo_card "" false false (-50) false));
    reflexivity.
Defined.

(** * Further properties of the assembled command *)

Lemma append_assoc (a b c : string) : (a +:+ b) +:+ c = a +:+ (b +:+ c).
Proof.
  induction a as [ | x a IH]; [ reflexivity | ].
  change (String x ((a +:+ b) +:+ c) = String x (a +:+ (b +:+ c))).
  now rewrite IH.
Qed.

(** Joining a list that ends in [t]. *)
Lemma join_snoc (sep : string) (l : list string) (t : string) :
  l <> [] -> join sep (l ++ [t]) = join sep l +:+ sep +:+ t.
Proof.
  induction l as [ | p l IH]; intros Hne; [ now contradiction Hne | ].
  destruct l as [ | q r]; [ reflexivity | ].
  change (join sep ((p :: q :: r) ++ [t]))
    with (p +:+ sep +:+ join sep ((q :: r) ++ [t])).
  rewrite IH by discriminate.
  change (join sep (p :: q :: r)) with (p +:+ sep +:+ join sep (q :: r)).
  now rewrite !append_assoc.
Qed.

Section Repeat.
Context {E : Externals}.

(** The inputs of [create] that [format_text_commands] never touches. *)
Lemma format_text_commands_keeps (self : Card) :
  source_file (snd (format_text_commands self)) = source_file self
  /\ omit_gradient (snd (format_text_commands self)) = omit_gradient self.
Proof. text_cases self; split; reflexivity. Qed.

(** Building the text commands from the instance they leave behind. *)
Lemma format_text_commands_twice (self : Card) :
  format_text_commands (snd (format_text_commands self))
  = format_text_commands self.
Proof.
  assert (Hstate : exists b,
             snd (format_text_commands self) = set_hide_episode_text b self
             /\ format_text_commands (set_hide_episode_text b self)
                = format_text_commands self).
  { unfold set_hide_episode_text.
    text_cases self;
      first [ now (exists true) | now (exists false) ]. }
  destruct Hstate as (b & Hb & Hagain). now rewrite Hb at 1.
Qed.

(** The list of [create] in terms of the instance it starts from. *)
Lemma create_commands_parts (self : Card) :
  create_commands self
  = ( ["convert " +:+ quoted (str_path (resolve (source_file self)))]
      ++ resize_and_style (parent self)
      ++ gradient_command self
      ++ fst (format_text_commands self)
      ++ resize_output (parent self)
      ++ [quoted (str_path (resolve (output_file self)))],
      snd (format_text_commands self) ).
Proof.
  unfold create_commands.
  destruct (format_text_commands_frame self) as [Hp Ho].
  destruct (format_text_commands self) as [text self']. simpl in *.
  now rewrite Hp, Ho.
Qed.

(** X7.  [create] can be repeated: run on the instance that a first run
    leaves behind, it hands the same command to ImageMagick and leaves the
    same instance, although the first run may have set
    [hide_episode_text]. *)
Theorem create_repeatable (self : Card) :
  create (snd (create self)) = create self.
Proof.
  assert (Hsnd : snd (create self) = snd (format_text_commands self)).
  { unfold create. now rewrite create_commands_parts. }
  rewrite Hsnd. unfold create. rewrite !create_commands_parts.
  rewrite format_text_commands_twice.
  destruct (format_text_commands_frame self) as [-> ->].
  destruct (format_text_commands_keeps self) as [-> Homit].
  unfold gradient_command. now rewrite Homit.
Qed.

(** X8.  The command is [convert] with the quoted source file, then the
    fragments of the style pass, the gradient step, the text commands and the
    output pass separated by single spaces, then the quoted output file. *)
Theorem create_command_ends (self : Card) :
  fst (create self)
  = ("convert " +:+ quoted (str_path (resolve (source_file self))))
    +:+ " "
    +:+ join " " (resize_and_style (parent self)
                  ++ gradient_command self
                  ++ fst (format_text_commands self)
                  ++ resize_output (parent self))
    +:+ " "
    +:+ quoted (str_path (resolve (output_file self))).
Proof.
  unfold create. rewrite create_commands_parts. cbn [fst].
  set (head := "convert " +:+ quoted (str_path (resolve (source_file self)))).
  set (tail := quoted (str_path (resolve (output_file self)))).
  set (style := resize_and_style (parent self)).
  set (output := resize_output (parent self)).
  assert (Htext : fst (format_text_commands self) <> [])
    by (text_cases self; discriminate).
  set (text := fst (format_text_commands self)) in *.
  set (gradient := gradient_command self).
  assert (Hmid : style ++ gradient ++ text ++ output <> []).
  { intros H. apply app_eq_nil in H as [_ H].
    apply app_eq_nil in H as [_ H]. apply app_eq_nil in H as [H _].
    now apply Htext. }
  replace ([head] ++ style ++ gradient ++ text ++ output ++ [tail])
    with (head :: (style ++ gradient ++ text ++ output) ++ [tail])
    by (simpl; now rewrite <- !app_assoc).
  rewrite <- join_snoc by exact Hmid.
  destruct ((style ++ gradient ++ text ++ output) ++ [tail]) as [ | x r] eqn:Hl;
    [ now destruct (style ++ gradient ++ text ++ output) | ].
  reflexivity.
Qed.

(** X9.  [season_text], [font_stroke_width] and [font_vertical_shift] are
    stored on the instance but play no part in the command: two cards
    constructed from the same arguments except these three give the same
    list of fragments and the same command. *)
Theorem unused_arguments_ignored
    (source card_file : Path) (title episode : string)
    (hide_season hide_episode : bool) (colour font_path : string)
    (interline interword title_interline : Z)
    (kern scale : float) (blur grayscale : bool)
    (stroke episode_colour : string) (episode_scale : float) (omit : bool)
    (preferences : option Preferences)
    (season1 season2 : string) (width1 width2 : float) (shift1 shift2 : Z) :
  let card season width shift :=
    init source card_file title season episode hide_season hide_episode
      colour font_path interline interword title_interline kern scale
      width shift blur grayscale stroke episode_colour episode_scale omit
      preferences in
  fst (create_commands (card season1 width1 shift1))
  = fst (create_commands (card season2 width2 shift2))
  /\ fst (create (card season1 width1 shift1))
     = fst (create (card season2 width2 shift2)).
Proof.
  intros card. subst card.
  unfold create, create_commands, init, gradient_command,
    format_text_commands.
  cbv zeta. card_fields.
  destruct (episode_tokens _) as [top sp sn sep ep en]. card_fields.
  destruct top, hide_season, hide_episode;
    cbn [Nat.leb String.length negb andb orb];
    destruct (String.eqb sn "ZERO"); split; reflexivity.
Qed.

(** X10.  The episode text enters the command only through its upper-cased
    form: two cards constructed from the same arguments except episode texts
    that agree once escaped and upper-cased give the same command. *)
Theorem episode_text_case_ignored
    (source card_file : Path) (title season : string)
    (hide_season hide_episode : bool) (colour font_path : string)
    (interline interword title_interline : Z)
    (kern scale width : float) (shift : Z) (blur grayscale : bool)
    (stroke episode_colour : string) (episode_scale : float) (omit : bool)
    (preferences : option Preferences) (episode1 episode2 : string) :
  let base := base_init blur grayscale preferences in
  let card episode :=
    init source card_file title season episode hide_season hide_episode
      colour font_path interline interword title_interline kern scale
      width shift blur grayscale stroke episode_colour episode_scale omit
      preferences in
  upper (escape_chars base episode1) = upper (escape_chars base episode2) ->
  fst (create (card episode1)) = fst (create (card episode2)).
Proof.
  intros base card Hup. subst base card.
  unfold create, create_commands, init, gradient_command,
    format_text_commands, episode_tokens.
  cbv zeta. card_fields. rewrite Hup. clear Hup.
  generalize (upper (escape_chars (base_init blur grayscale preferences)
                       episode2)).
  intros u.
  destruct (unpack5 _) as [[[[[a b] c] d] e] | ]; card_fields;
    [ | destruct u ];
    destruct hide_season, hide_episode;
    cbn [Nat.leb String.length negb andb orb];
    try destruct (String.eqb b "ZERO"); reflexivity.
Qed.

(** X11.  The title text shows up in the label fragments only: two cards
    constructed from the same arguments except the title have text commands
    of the same length that agree on every fragment that is not a label. *)
Theorem title_only_in_labels
    (source card_file : Path) (season episode : string)
    (hide_season hide_episode : bool) (colour font_path : string)
    (interline interword title_interline : Z)
    (kern scale width : float) (shift : Z) (blur grayscale : bool)
    (stroke episode_colour : string) (episode_scale : float) (omit : bool)
    (preferences : option Preferences) (title1 title2 : string) :
  let card title :=
    init source card_file title season episode hide_season hide_episode
      colour font_path interline interword title_interline kern scale
      width shift blur grayscale stroke episode_colour episode_scale omit
      preferences in
  List.length (fst (format_text_commands (card title1)))
  = List.length (fst (format_text_commands (card title2)))
  /\ List.filter (fun t => negb (is_label t))
       (fst (format_text_commands (card title1)))
     = List.filter (fun t => negb (is_label t))
         (fst (format_text_commands (card title2))).
Proof.
  intros card. subst card.
  unfold init, format_text_commands.
  cbv zeta. card_fields.
  destruct (episode_tokens _) as [top sp sn sep ep en]. card_fields.
  destruct top, hide_season, hide_episode;
    cbn [Nat.leb String.length negb andb orb];
    destruct (String.eqb sn "ZERO"); split; vm_compute; reflexivity.
Qed.

End Repeat.

Lemma episode_text_case_ignored_witness :
  fst (create (demo_card "Season one • Episode two" false false (-50) false))
  = fst (create (demo_card "SEASON ONE • EPISODE TWO" false false (-50) false)).
Proof.
  apply (episode_text_case_ignored (E := demo)
           "/in/source.jpg" "/out/card.jpg" "THE LONG NIGHT" "Season 1"
           false false TITLE_COLOR TITLE_FONT 0 0 (-50) 1 1 1 0 false false
           "black" SERIES_COUNT_TEXT_COLOR 1 false None
           "Season one • Episode two" "SEASON ONE • EPISODE TWO").
  vm_compute. reflexivity.
Defined.

(** * Further properties of the customisation predicate and the parser *)

Section MoreCustomisation.
Context {E : Externals}.

(** X12.  Only three keys of [extras] are ever looked up: adding or removing
    any other key, whatever its value, leaves [is_custom_font] unchanged. *)
Theorem is_custom_font_other_key (font : Font) (extras : gmap string value)
    (key : string) (v : value) :
  key <> "episode_text_color" ->
  key <> "episode_text_font_size" ->
  key <> "stroke_color" ->
  is_custom_font font (<[key := v]> extras) = is_custom_font font extras
  /\ is_custom_font font (delete key extras) = is_custom_font font extras.
Proof.
  intros H1 H2 H3. unfold is_custom_font, present_and.
  rewrite !lookup_insert_ne, !lookup_delete_ne by congruence.
  split; reflexivity.
Qed.

(** X13.  An extra that is present with its standard value counts exactly
    like an absent one, for each of the three keys. *)
Theorem is_custom_font_standard_extra (font : Font)
    (extras : gmap string value) :
  is_custom_font font
    (<["episode_text_color" := VStr SERIES_COUNT_TEXT_COLOR]> extras)
  = is_custom_font font (delete "episode_text_color" extras)
  /\ is_custom_font font (<["episode_text_font_size" := VFloat 1]> extras)
     = is_custom_font font (delete "episode_text_font_size" extras)
  /\ is_custom_font font (<["stroke_color" := VStr "black"]> extras)
     = is_custom_font font (delete "stroke_color" extras).
Proof.
  unfold is_custom_font, present_and.
  rewrite !lookup_insert_eq, !lookup_delete_eq.
  rewrite !lookup_insert_ne, !lookup_delete_ne by discriminate.
  repeat split; reflexivity.
Qed.

End MoreCustomisation.

(** A word without the separator, followed by the separator, is cut off as
    one part. *)
Lemma split_word (sep : ascii) (n : nat) (w rest : string) :
  count_char sep w = 0 ->
  split sep (S n) (w +:+ String sep rest) = w :: split sep n rest.
Proof.
  induction w as [ | c w IH]; intros Hw.
  - change ("" +:+ String sep rest) with (String sep rest).
    simpl split. now rewrite Ascii.eqb_refl.
  - simpl in Hw. destruct (Ascii.eqb c sep) eqn:Hc; [ discriminate Hw | ].
    change (String c w +:+ String sep rest)
      with (String c (w +:+ String sep rest)).
    simpl split. rewrite Hc. now rewrite IH.
Qed.

Lemma split_no_more (sep : ascii) (s : string) : split sep 0 s = [s].
Proof. destruct s; reflexivity. Qed.

Section MoreParser.
Context {E : Externals}.

(** X14.  An episode text that upper-cases to the shape of the standard
    format, [SEASON s • EPISODE e] with no space in [s], is laid out as
    [Standard] with exactly these tokens; [e] may itself contain spaces. *)
Theorem standard_format_tokens (text s e : string) :
  upper text = "SEASON " +:+ s +:+ " • EPISODE " +:+ e ->
  count_char " " s = 0 ->
  label_of (episode_tokens text) = Standard "SEASON" s "•" "EPISODE" e.
Proof.
  intros Hu Hs. unfold episode_tokens. rewrite Hu.
  change ("SEASON " +:+ s +:+ " • EPISODE " +:+ e)
    with ("SEASON" +:+ String " "
            (s +:+ String " "
               ("•" +:+ String " " ("EPISODE" +:+ String " " e)))).
  rewrite (split_word " " 3 "SEASON") by reflexivity.
  rewrite (split_word " " 2 s) by exact Hs.
  rewrite (split_word " " 1 "•") by reflexivity.
  rewrite (split_word " " 0 "EPISODE") by reflexivity.
  rewrite split_no_more. reflexivity.
Qed.

(** X15.  When the season number is written in two words, [SEASON a b •
    EPISODE e], the four cuts are used up early: [a] is taken as the season
    number, [b] as the separator, the bullet as the episode prefix, and the
    episode number is [EPISODE e]. *)
Theorem two_word_season_tokens (text a b e : string) :
  upper text = "SEASON " +:+ a +:+ " " +:+ b +:+ " • EPISODE " +:+ e ->
  count_char " " a = 0 ->
  count_char " " b = 0 ->
  label_of (episode_tokens text)
  = Standard "SEASON" a b "•" ("EPISODE " +:+ e).
Proof.
  intros Hu Ha Hb. unfold episode_tokens. rewrite Hu.
  change ("SEASON " +:+ a +:+ " " +:+ b +:+ " • EPISODE " +:+ e)
    with ("SEASON" +:+ String " "
            (a +:+ String " "
               (b +:+ String " " ("•" +:+ String " " ("EPISODE " +:+ e))))).
  rewrite (split_word " " 3 "SEASON") by reflexivity.
  rewrite (split_word " " 2 a) by exact Ha.
  rewrite (split_word " " 1 b) by exact Hb.
  rewrite (split_word " " 0 "•") by reflexivity.
  rewrite split_no_more. reflexivity.
Qed.

End MoreParser.

Lemma is_custom_font_other_key_witness :
  is_custom_font (E := demo)
    {| color := "#EBEBEB"; file := "/ref/olivier/Montserrat-Bold.ttf";
       interline_spacing := 0; interword_spacing := 0; kerning := 1;
       size := 1; stroke_width := 1; vertical_shift := 0 |}
    (<["omit_gradient" := VStr "True"]> ∅)
  = is_custom_font (E := demo)
      {| color := "#EBEBEB"; file := "/ref/olivier/Montserrat-Bold.ttf";
         interline_spacing := 0; interword_spacing := 0; kerning := 1;
         size := 1; stroke_width := 1; vertical_shift := 0 |}
      ∅.
Proof.
  apply (is_custom_font_other_key (E := demo)); discriminate.
Defined.

Lemma standard_format_tokens_witness :
  label_of (episode_tokens (E := demo) "Season one • Episode twenty one")
  = Standard "SEASON" "ONE" "•" "EPISODE" "TWENTY ONE".
Proof.
  apply (standard_format_tokens (E := demo)
           "Season one • Episode twenty one" "ONE" "TWENTY ONE");
    reflexivity.
Defined.

Lemma two_word_season_tokens_witness :
  label_of (episode_tokens (E := demo) "Season one hundred • Episode two")
  = Standard "SEASON" "ONE" "HUNDRED" "•" "EPISODE TWO".
Proof.
  apply (two_word_season_tokens (E := demo)
           "Season one hundred • Episode two" "ONE" "HUNDRED" "TWO");
    reflexivity.
Defined.

Section Fonts.
Context {E : Externals}.

(** X16.  In the standard layout with both texts shown and a season number
    other than [ZERO], the season prefix and the episode prefix are typeset
    in the prefix font and the two numbers in the number font; the separator
    sets no font of its own and so comes out in the number font. *)
Theorem episode_group_fonts (self : Card) (sp sn sep ep en : string)
    (st0 : settings) :
  episode_label self = Standard sp sn sep ep en ->
  hide_season_text self = false ->
  hide_episode_text self = false ->
  sn <> "ZERO" ->
  let prefix_font := Some (quoted (str_path (resolve EPISODE_PREFIX_FONT))) in
  let number_font := Some (quoted (str_path (resolve EPISODE_NUMBER_FONT))) in
  List.map (fun p => (fst p, s_font (style_of (snd p))))
    (typeset st0 (season_episode_group (fst (format_text_commands self))))
  = [ (label sp, prefix_font); (label sn, number_font);
      (label sep, number_font);
      (label ep, prefix_font); (label en, number_font) ].
Proof.
  intros H Hs He Hn.
  text_cases self; try discriminate H; try discriminate Hs;
    try discriminate He; injection H as <- <- <- <- <-.
  - apply String.eqb_eq in Hzero. now contradiction Hn.
  - reflexivity.
Qed.

End Fonts.

Lemma episode_group_fonts_witness :
  List.map (fun p => (fst p, s_font (style_of (snd p))))
    (typeset (fun _ => None)
       (season_episode_group
          (fst (format_text_commands
                  (demo_card "Season one • Episode two" false false (-50)
                     false)))))
  = [ (label "SEASON", Some (quoted "/ref/star_wars/HelveticaNeue.ttc"));
      (label "ONE", Some (quoted "/ref/star_wars/HelveticaNeue-Bold.ttf"));
      (label "•", Some (quoted "/ref/star_wars/HelveticaNeue-Bold.ttf"));
      (label "EPISODE", Some (quoted "/ref/star_wars/HelveticaNeue.ttc"));
      (label "TWO", Some (quoted "/ref/star_wars/HelveticaNeue-Bold.ttf")) ].
Proof.
  apply (episode_group_fonts
           (demo_card "Season one • Episode two" false false (-50) false)
           "SEASON" "ONE" "•" "EPISODE" "TWO" (fun _ => None)).
  - vm_compute. reflexivity.
  - reflexivity.
  - reflexivity.
  - discriminate.
Defined.
